(** * p5.js image module: still-frame capture and GIF export

    A shallow embedding of [src/image/image.js]:
    - [_makeFrame]            builds one still-export record from the canvas;
    - [saveFrames]            samples the canvas on a repeating timer for a
                              bounded duration and dispatches the buffer;
    - [encodeAndDownloadGif]  drives the GIF encoder over the frames of a
                              p5.Image and hands the result to [downloadFile].

    JavaScript numbers are modelled as exact rationals ([Q]); rounding of
    IEEE doubles is not modelled.  JavaScript strings are modelled as
    [string]; only ASCII letters change under [toLowerCase].  Callbacks
    run to completion one at a time; when a timer callback runs is the
    host's choice ([play]), and [session] follows one exact schedule. *)

From Stdlib Require Import QArith Qround ZArith Lia Lqa.
From Stdlib Require Import String Ascii List Bool DecimalString FinFun.
From Stdlib Require DecimalNat DecimalFacts.
Import ListNotations.

Local Open Scope string_scope.

(** ** JavaScript strings *)

Module JsString.

(** [c.toLowerCase()] on one character: A..Z move to a..z. *)
Definition lower_ascii (c : ascii) : ascii :=
  let n := nat_of_ascii c in
  if (65 <=? n)%nat && (n <=? 90)%nat then ascii_of_nat (n + 32) else c.

Fixpoint toLowerCase (s : string) : string :=
  match s with
  | EmptyString => EmptyString
  | String c r => String (lower_ascii c) (toLowerCase r)
  end.

(** [strip_prefix p s] is [Some r] when [s = p ++ r]. *)
Fixpoint strip_prefix (p s : string) : option string :=
  match p, s with
  | EmptyString, _ => Some s
  | String _ _, EmptyString => None
  | String a p', String b s' =>
      if Ascii.eqb a b then strip_prefix p' s' else None
  end.

(** [s.replace(pat, rep)] with a string pattern: only the first
    occurrence of [pat] is replaced; [rep] holds no [$] pattern here. *)
Fixpoint replace (s pat rep : string) : string :=
  match strip_prefix pat s with
  | Some rest => rep ++ rest
  | None =>
      match s with
      | EmptyString => EmptyString
      | String c r => String c (replace r pat rep)
      end
  end.

(** [!s] for a string value: only the empty string is falsy. *)
Definition is_empty (s : string) : bool :=
  match s with EmptyString => true | _ => false end.

(** [n.toString()] for a non-negative integer. *)
Definition of_nat (n : nat) : string := NilZero.string_of_uint (Nat.to_uint n).

End JsString.

(** ** Host objects *)

(** The canvas is a mutable host object: the data URI that
    [cnv.toDataURL(mimeType)] returns depends on the instant of the call. *)
Record HTMLCanvasElement := { toDataURL : Q -> string -> string }.

Record Element := { elt : HTMLCanvasElement }.

Record P5 := { _curElement : Element }.

(** ** [_makeFrame] *)

(** The record [thisFrame] built by [_makeFrame]. *)
Record Frame := {
  imageData : string;
  filename : string;
  ext : string
}.

(** [extension] as received: [None] is [undefined]. *)
Definition falsy (extension : option string) : bool :=
  match extension with
  | None => true
  | Some s => JsString.is_empty s
  end.

(** The value of [extension] after the [if (!extension)] branch. *)
Definition extension_of (extension : option string) : string :=
  match extension with
  | None => "png"
  | Some s => if JsString.is_empty s then "png" else s
  end.

(** The value of [mimeType] after the [if]/[switch]. *)
Definition mimeType_of (extension : option string) : string :=
  if falsy extension then "image/png"
  else
    let e := JsString.toLowerCase (extension_of extension) in
    if String.eqb e "png" then "image/png"
    else if String.eqb e "jpeg" then "image/jpeg"
    else if String.eqb e "jpg" then "image/jpeg"
    else "image/png".

Definition downloadMime : string := "image/octet-stream".

(** [p5.prototype._makeFrame = function(filename, extension, _cnv)]
    (image.js, lines 300-336), called at instant [now] with receiver [this] ([None] when the function
    is called unbound, as [saveFrames] does). *)
Definition _makeFrame (this : option P5) (now : Q)
    (filename : string) (extension : option string)
    (_cnv : HTMLCanvasElement) : Frame :=
  let cnv := match this with
             | Some p => elt (_curElement p)
             | None => _cnv
             end in
  let mimeType := mimeType_of extension in
  let imageData := toDataURL cnv now mimeType in
  let imageData := JsString.replace imageData mimeType downloadMime in
  {| imageData := imageData; filename := filename; ext := extension_of extension |}.

(** ** Numbers *)

Local Open Scope Q_scope.

Module JsNumber.

Definition min (a b : Q) : Q := if Qle_bool a b then a else b.
Definition max (a b : Q) : Q := if Qle_bool a b then b else a.

(** [v || d] for a numeric argument [v]: [undefined] ([None]) and [0] are
    falsy and give the default [d]. *)
Definition or_default (v : option Q) (d : Q) : Q :=
  match v with
  | None => d
  | Some x => if Qeq_bool x 0 then d else x
  end.

(** The result of a division: a finite number or [Infinity]. *)
Inductive t := Finite (q : Q) | Infinity.

(** The largest finite double, [2^1024 - 2^971]. *)
Definition max_double : Q := inject_Z (2 ^ 1024 - 2 ^ 971).

(** [a / b] for [0 <= b] and [0 < a]: dividing by zero gives [Infinity],
    and so does a quotient beyond the largest double (a divisor that is
    positive but tiny).  Rounding of a quotient in range is not modelled. *)
Definition div (a b : Q) : t :=
  if Qeq_bool b 0 then Infinity
  else if Qle_bool (a / b) max_double then Finite (a / b)
  else Infinity.

End JsNumber.

(** Modelled from the spec: [p5.prototype.constrain] lives in the math
    module, outside this file; the spec says the value is clamped to the
    closed range [[low, high]]. *)
Definition constrain (n low high : Q) : Q :=
  JsNumber.max (JsNumber.min n high) low.

(** What clamping [x] to [[lo, hi]] means for the result [y]. *)
Definition clamped (lo hi x y : Q) : Prop :=
  (lo <= y <= hi) /\
  (x < lo -> y = lo) /\
  (hi < x -> y = hi) /\
  (lo <= x <= hi -> y == x).

(** ** [saveFrames] and the timers it registers *)

Inductive JsFunction := Fn (name : string).

(** What a capture session does to the outside world, in order. *)
Inductive Event :=
| Pushed (at_ms : Q) (f : Frame)            (* frames.push(makeFrame(..)) *)
| ClearInterval (at_ms : Q)                 (* clearInterval(frameFactory) *)
| Callback (f : JsFunction) (arg : list Frame)  (* callback(frames) *)
| DownloadFile (data name extension : string).  (* p5.prototype.downloadFile *)

(** Instants are milliseconds elapsed since the call to [saveFrames].
    [Instant] says when an armed timer fires next. *)
Inductive Instant := At (ms : Q) | Never.

(** The exact schedule: a timer armed at [now] with [delay] is taken to fire
    exactly [delay] ms later, and never when the delay is [Infinity].  This
    is one schedule only, and not the one a host gives: hosts coerce delays
    (whole milliseconds, at least 1 ms, [Infinity] to the shortest delay) and
    run callbacks late.  Nothing stated below depends on the instants it
    yields; see [play] for every schedule.  Instants are kept in lowest
    terms. *)
Definition after (now : Q) (delay : JsNumber.t) : Instant :=
  match delay with
  | JsNumber.Finite d => At (Qred (now + d))
  | JsNumber.Infinity => Never
  end.

(** The variables of one [saveFrames] call that its two timer callbacks
    close over and assign, and the timers themselves. *)
Record Session := {
  frames : list Frame;
  count : nat;
  frameFactory : option Instant;  (* the interval; [None] once cleared *)
  handoff : option Q;             (* the pending [setTimeout]; [None] once run *)
  log : list Event
}.

(** The bindings of one call that are never assigned again. *)
Record Closure := {
  fName : string;
  extn : option string;
  cnv : HTMLCanvasElement;
  callback : option JsFunction;
  period : JsNumber.t
}.

Definition duration_of (_duration : option Q) : Q :=
  constrain (JsNumber.or_default _duration 3) 0 15 * 1000.

Definition fps_of (_fps : option Q) : Q :=
  constrain (JsNumber.or_default _fps 15) 0 22.

Definition closure_of (this : P5) (fName : string) (ext : option string)
    (_fps : option Q) (callback : option JsFunction) : Closure :=
  {| fName := fName; extn := ext; cnv := elt (_curElement this);
     callback := callback;
     period := JsNumber.div 1000 (fps_of _fps) |}.

(** [p5.prototype.saveFrames = function(fName, ext, _duration, _fps, callback)]
    (image.js, lines 270-298): the state right after the call returns, with
    [setInterval(.., 1000 / fps)] and [setTimeout(.., duration + 0.01)]
    registered and nothing captured yet.  [p5._validateParameters] only
    reports and is left out. *)
Definition saveFrames (this : P5) (fName : string)
    (ext : option string) (_duration _fps : option Q)
    (callback : option JsFunction) : Closure * Session :=
  let duration := duration_of _duration in
  let c := closure_of this fName ext _fps callback in
  (c, {| frames := []; count := 0;
         frameFactory := Some (after 0 (period c));
         handoff := Some (duration + 0.01);
         log := [] |}).

(** The body of the [setInterval] callback, run at instant [t]. *)
Definition on_interval (c : Closure) (t : Q) (s : Session) : Session :=
  let f := _makeFrame None t (fName c ++ JsString.of_nat (count s)) (extn c) (cnv c) in
  {| frames := frames s ++ [f];
     count := S (count s);
     frameFactory := Some (after t (period c));
     handoff := handoff s;
     log := log s ++ [Pushed t f] |}.

(** The [for (const f of frames)] loop of the default path. *)
Definition download_all (fs : list Frame) : list Event :=
  map (fun f => DownloadFile (imageData f) (filename f) (ext f)) fs.

(** [if (callback) { callback(frames) } else { for ... downloadFile }]. *)
Definition dispatch (c : Closure) (fs : list Frame) : list Event :=
  match callback c with
  | Some f => [Callback f fs]
  | None => download_all fs
  end.

(** The body of the [setTimeout] callback, run at instant [t]:
    [clearInterval], the dispatch, then [frames = []]. *)
Definition on_timeout (c : Closure) (t : Q) (s : Session) : Session :=
  {| frames := [];
     count := count s;
     frameFactory := None;
     handoff := None;
     log := log s ++ ClearInterval t :: dispatch c (frames s) |}.

(** Which timer runs next on the exact schedule: the one whose instant
    comes first, the interval on a tie.  A host may order a firing of the
    interval and the hand-off that are due close together either way. *)
Inductive Due := IntervalDue (t : Q) | TimeoutDue (t : Q) | Idle.

Definition next_due (s : Session) : Due :=
  match frameFactory s, handoff s with
  | Some (At t), Some d => if Qle_bool t d then IntervalDue t else TimeoutDue d
  | Some (At t), None => IntervalDue t
  | _, Some d => TimeoutDue d
  | _, None => Idle
  end.

(** One turn of the event loop; [None] when no timer is left to run. *)
Definition step (c : Closure) (s : Session) : option Session :=
  match next_due s with
  | IntervalDue t => Some (on_interval c t s)
  | TimeoutDue t => Some (on_timeout c t s)
  | Idle => None
  end.

(** At most [fuel] turns of the event loop. *)
Fixpoint run (c : Closure) (fuel : nat) (s : Session) : Session :=
  match fuel with
  | O => s
  | S k => match step c s with
           | Some s' => run c k s'
           | None => s
           end
  end.

(** The session has come to rest: no timer of it will ever run again. *)
Definition finished (s : Session) : Prop :=
  frameFactory s = None /\ handoff s = None.

(** A number of turns that is enough for any session: durations are at most
    15000 ms and periods at least 1000/22 ms, so there are at most 330
    ticks before the hand-off. *)
Definition enough : nat := 332.

(** A whole capture session: the call, then the event loop until rest. *)
Definition session (this : P5) (fName : string)
    (ext : option string) (_duration _fps : option Q)
    (callback : option JsFunction) : Session :=
  let '(c, s) := saveFrames this fName ext _duration _fps callback in
  run c enough s.

(** *** What a session is expected to capture *)

(** [tick p k] is the instant of firing number [k] (from 0) of an interval
    of period [p] armed at instant 0. *)
Fixpoint tick (p : Q) (k : nat) : Q :=
  match k with
  | O => Qred (0 + p)
  | S k' => Qred (tick p k' + p)
  end.



(** The period of the interval in ms ([0] stands in when it is [Infinity]
    and no firing ever happens). *)
Definition ms (c : Closure) : Q :=
  match period c with
  | JsNumber.Finite p => p
  | JsNumber.Infinity => 0
  end.


(** *** Any host

    When a callback really runs is up to the host: delays are coerced (to
    whole milliseconds, to at least 1 ms, [Infinity] to the shortest delay)
    and callbacks run late.  A schedule lists the firings the host chose, in
    order, each with its instant; the only rule is the code's own: the
    interval fires while it has not been cleared, the hand-off once. *)
Inductive Firing := IntervalAt (t : Q) | TimeoutAt (t : Q).

Definition fire (c : Closure) (s : Session) (f : Firing) : option Session :=
  match f with
  | IntervalAt t =>
      match frameFactory s with
      | Some _ => Some (on_interval c t s)
      | None => None
      end
  | TimeoutAt t =>
      match handoff s with
      | Some _ => Some (on_timeout c t s)
      | None => None
      end
  end.

Fixpoint play (c : Closure) (schedule : list Firing) (s : Session)
    : option Session :=
  match schedule with
  | [] => Some s
  | f :: rest =>
      match fire c s f with
      | Some s' => play c rest s'
      | None => None
      end
  end.






(** A sketch to run sessions on: its canvas answers with a data URI. *)
Definition sketch : P5 :=
  {| _curElement :=
       {| elt := {| toDataURL := fun _ m => ("data:" ++ m ++ ";base64,AA")%string |} |} |}.

(** ** [encodeAndDownloadGif] *)

Module Gif.

Local Open Scope Z_scope.

(** [frames[i].image] is an [ImageData]: RGBA bytes and the dimensions. *)
Record ImageData := { data : list Z; width : Z; height : Z }.

(** One entry of [pImg.gifProperties.frames]. *)
Record GifFrame := { image : ImageData; delay : Z }.

Record GifProperties := { frames : list GifFrame }.

(** A p5.Image; [gifProperties] is [null] ([None]) unless it holds a GIF. *)
Record PImage := { gifProperties : option GifProperties }.

Inductive JsError :=
| TypeError (msg : string)
| ReferenceError (msg : string)
| Thrown (msg : string).          (* an exception raised inside gifenc *)

Definition Result (A : Type) : Type := (JsError + A)%type.

(** *** The functions imported from gifenc *)

Inductive Format := rgba4444 | rgb444 | rgb565.

Record QuantizeOptions := { format : Format; clearAlpha : bool }.

Definition Palette := list (list Z).
Definition Index := list Z.

(** [quantize] and [applyPalette] belong to the gifenc package, not to
    this file: they are an interface here, and either may raise. *)
Class GifEnc := {
  quantize : list Z -> Z -> QuantizeOptions -> Result Palette;
  applyPalette : list Z -> Palette -> Format -> Result Index
}.

(** The encoder object returned by [GIFEncoder()] is modelled by what it
    has been told: the frame records written so far, in order, and
    whether [finish] has been called.  What bytes gifenc makes of them is
    outside this file. *)
Record WriteOptions := { opt_palette : Palette; opt_delay : Z }.

Record FrameRecord := {
  rec_index : Index;
  rec_width : Z;
  rec_height : Z;
  rec_opts : WriteOptions
}.

Record Encoder := { written : list FrameRecord; finished : bool }.

Definition GIFEncoder : Encoder := {| written := []; finished := false |}.

Definition writeFrame (gif : Encoder) (index : Index) (w h : Z)
    (opts : WriteOptions) : Encoder :=
  {| written := written gif ++
       [{| rec_index := index; rec_width := w; rec_height := h;
           rec_opts := opts |}];
     finished := finished gif |}.

Definition finish (gif : Encoder) : Encoder :=
  {| written := written gif; finished := true |}.

Definition bytesView (gif : Encoder) : Encoder := gif.

Record Blob := { parts : Encoder; type : string }.

(** The frame records a blob was built from, in the order they were handed
    to [writeFrame].  This is not a GIF decoder: what gifenc makes of a
    record (it stores the delay as [round(delay / 10)] in 16 bits) is
    outside this file, and nothing is stated here about decoded delays. *)
Definition decode (b : Blob) : list FrameRecord := written (parts b).

(** *** The world outside *)

(** The free identifiers [width] and [height] of the function body are
    looked up in the global scope; [None] is an unbound identifier. *)
Record Globals := { g_width : option Z; g_height : option Z }.

Record Download := { payload : Blob; name : string; extension : string }.

Record World := { console : list string; downloads : list Download }.

(** *** Effects: console output, downloads and exceptions *)

Definition M (A : Type) : Type := World -> Result A * World.

Definition ret {A} (a : A) : M A := fun w => (inr a, w).

Definition throw {A} (e : JsError) : M A := fun w => (inl e, w).

Definition bind {A B} (m : M A) (k : A -> M B) : M B :=
  fun w => match m w with
           | (inr a, w') => k a w'
           | (inl e, w') => (inl e, w')
           end.

Definition lift {A} (r : Result A) : M A := fun w => (r, w).

Notation "x <- m ;; k" := (bind m (fun x => k))
  (at level 61, m at next level, right associativity).
Notation "m ;;; k" := (bind m (fun _ => k))
  (at level 61, right associativity).

Definition console_info (msg : string) : M unit :=
  fun w => (inr tt, {| console := console w ++ [msg];
                      downloads := downloads w |}).

(** [p5.prototype.downloadFile(blob, filename, extension)]. *)
Definition downloadFile (b : Blob) (filename ext : string) : M unit :=
  fun w => (inr tt, {| console := console w;
                      downloads := downloads w ++
                        [{| payload := b; name := filename;
                            extension := ext |}] |}).

Definition global (x : string) (v : option Z) : M Z :=
  match v with
  | Some z => ret z
  | None => throw (ReferenceError (x ++ " is not defined"))
  end.

Section Encode.

Context {L : GifEnc}.
Variable env : Globals.

(** The [for (let i = 0; i < frames.length; i++)] loop, from index [i]
    on, over the frames that are left. *)
Fixpoint write_frames (i : nat) (rest : list GifFrame) (gif : Encoder)
    : M Encoder :=
  match rest with
  | [] => ret gif
  | f :: rest' =>
      console_info ("Processing frame " ++ JsString.of_nat i) ;;;
      let data := data (image f) in
      let format := rgba4444 in
      palette <- lift (quantize data 256
                         {| format := format; clearAlpha := false |}) ;;
      index <- lift (applyPalette data palette format) ;;
      w <- global "width" (g_width env) ;;
      h <- global "height" (g_height env) ;;
      write_frames (S i) rest'
        (writeFrame gif index w h
           {| opt_palette := palette; opt_delay := delay f |})
  end.

(** [p5.prototype.encodeAndDownloadGif = function(pImg, filename)]
    (image.js, lines 188-226). *)
Definition encodeAndDownloadGif (pImg : PImage) (filename : string)
    : M unit :=
  frames <- match gifProperties pImg with
            | Some g => ret (frames g)
            | None => throw (TypeError "pImg.gifProperties is null")
            end ;;
  let gif := GIFEncoder in
  gif <- write_frames 0 frames gif ;;
  let gif := finish gif in
  let buffer := bytesView gif in
  let extension := "gif" in
  let blob := {| parts := buffer; type := "image/gif" |} in
  downloadFile blob filename extension.

End Encode.

(** The record the loop writes for a frame once the library has produced
    [palette] and [index] for it. *)
Definition record_of (w h : Z) (f : GifFrame) (palette : Palette)
    (index : Index) : FrameRecord :=
  {| rec_index := index; rec_width := w; rec_height := h;
     rec_opts := {| opt_palette := palette; opt_delay := delay f |} |}.

(** What [encodeAndDownloadGif] hands to gifenc for one frame, and
    nothing else of the frame: its bytes and its delay. *)
Definition essence (f : GifFrame) : list Z * Z := (data (image f), delay f).

Definition same_dimensions (fs : list GifFrame) : Prop :=
  forall f g, In f fs -> In g fs ->
    width (image f) = width (image g) /\ height (image f) = height (image g).

(** *** A stand-in library to run the function on concrete frames

    The palette is the list of distinct RGBA quadruples of the frame in
    order of first occurrence, the index of a pixel is the position of its
    quadruple in the palette.  It never raises. *)
Fixpoint pixels (d : list Z) : list (list Z) :=
  match d with
  | r :: g :: b :: a :: rest => [r; g; b; a] :: pixels rest
  | _ => []
  end.

Fixpoint position (c : list Z) (p : Palette) : Z :=
  match p with
  | [] => 0
  | c' :: p' => if list_eq_dec Z.eq_dec c c' then 0 else 1 + position c p'
  end.

Definition exact : GifEnc :=
  {| quantize := fun d _ _ => inr (nodup (list_eq_dec Z.eq_dec) (pixels d));
     applyPalette := fun d p _ => inr (map (fun c => position c p) (pixels d)) |}.

(** *** Vocabulary of the statements below *)

Definition options : QuantizeOptions :=
  {| format := rgba4444; clearAlpha := false |}.

(** gifenc returns normally on the bytes of frame [f]. *)
Definition library_returns {L : GifEnc} (f : GifFrame) : Prop :=
  exists palette index,
    quantize (data (image f)) 256 options = inr palette /\
    applyPalette (data (image f)) palette rgba4444 = inr index.

(** [r] is the record of frame [f]: the palette gifenc derived from the
    frame's own bytes, the indices of those bytes against that palette,
    the frame's own delay, and the ambient dimensions [w] x [h]. *)
Definition written_for {L : GifEnc} (w h : Z) (f : GifFrame)
    (r : FrameRecord) : Prop :=
  exists palette index,
    quantize (data (image f)) 256 options = inr palette /\
    applyPalette (data (image f)) palette rgba4444 = inr index /\
    r = record_of w h f palette index.

Definition progress (i n : nat) : list string :=
  map (fun k => "Processing frame " ++ JsString.of_nat k)%string (seq i n).

Definition delivered (recs : list FrameRecord) : Blob :=
  {| parts := {| written := recs; finished := true |}; type := "image/gif" |}.

(** Sample frames: [solid w h rgba ms] is a [w] x [h] frame of one colour
    shown for [ms] milliseconds. *)
Definition solid (w h : Z) (rgba : list Z) (ms : Z) : GifFrame :=
  {| image := {| data := concat (repeat rgba (Z.to_nat (w * h)));
                 width := w; height := h |};
     delay := ms |}.

Definition red : list Z := [255; 0; 0; 255].
Definition blue : list Z := [0; 0; 255; 255].

Definition gif_of (fs : list GifFrame) : PImage :=
  {| gifProperties := Some {| frames := fs |} |}.

Definition quiet : World := {| console := []; downloads := [] |}.

(** Five frames of which the third is 3 x 2 and the others 2 x 3. *)
Definition third_is_wider : list GifFrame :=
  [solid 2 3 red 100; solid 2 3 blue 100; solid 3 2 red 100;
   solid 2 3 blue 100; solid 2 3 red 100].

Definition all_alike : list GifFrame :=
  [solid 2 3 red 100; solid 2 3 blue 100; solid 2 3 red 100;
   solid 2 3 blue 100; solid 2 3 red 100].

End Gif.


(** ** [saveCanvas] *)

Module SaveCanvas.

(** The kinds of argument value that [saveCanvas] tells apart. *)
Inductive JsValue :=
| Undefined
| Str (s : string)
| Canvas (c : HTMLCanvasElement)     (* instanceof HTMLCanvasElement *)
| P5Element (e : Element).           (* instanceof p5.Element *)

Definition truthy (v : JsValue) : bool :=
  match v with
  | Undefined => false
  | Str s => negb (JsString.is_empty s)
  | Canvas _ | P5Element _ => true
  end.

(** [a || b]. *)
Definition or (a b : JsValue) : JsValue := if truthy a then a else b.

(** The call [htmlCanvas.toBlob(blob => downloadFile(blob, filename,
    extension), mimeType)]: the canvas asked, the mime type asked for, and
    the name and extension the download will carry. *)
Record Request := {
  req_canvas : HTMLCanvasElement;
  req_mime : string;
  req_filename : JsValue;
  req_extension : JsValue
}.

(** The [switch (extension)]: the cases compare with [===]. *)
Definition mimeType_for (extension : JsValue) : string :=
  match extension with
  | Str s =>
      if String.eqb s "jpeg" then "image/jpeg"
      else if String.eqb s "jpg" then "image/jpeg"
      else "image/png"
  | _ => "image/png"
  end.

(** [args] after the optional [args.shift()]. *)
Definition args_of (arguments : list JsValue) : list JsValue :=
  match arguments with
  | Canvas _ :: rest | P5Element _ :: rest => rest
  | _ => arguments
  end.

(** The value of [htmlCanvas]; [None] when [this._curElement] is not set
    and no canvas was passed. *)
Definition htmlCanvas_of (_curElement : option Element)
    (arguments : list JsValue) : option HTMLCanvasElement :=
  match arguments with
  | Canvas c :: _ => Some c
  | P5Element e :: _ => Some (elt e)
  | _ => option_map elt _curElement
  end.

Section WithHelper.

(** [p5.prototype._checkFileExtension] lives in the io module, outside this
    file: it is a parameter here, returning the pair [[filename, ext]] or
    raising (as it does on a file name that is not a string). *)
Variable _checkFileExtension :
  JsValue -> JsValue -> Gif.Result (JsValue * JsValue).

(** [extension || _checkFileExtension(filename, extension)[1] || 'png']:
    the helper is called only when [extension] is falsy. *)
Definition extension_for (filename extension : JsValue) : Gif.Result JsValue :=
  if truthy extension then inr extension
  else
    match _checkFileExtension filename extension with
    | inl err => inl err
    | inr found => inr (or (snd found) (Str "png"))
    end.

(** [p5.prototype.saveCanvas = function()] (image.js, lines 142-186), with
    [_curElement] the value of [this._curElement] ([None] when it is not
    set).  [p5._validateParameters] only reports and is left out. *)
Definition saveCanvas (_curElement : option Element)
    (arguments : list JsValue) : Gif.Result Request :=
  let htmlCanvas := htmlCanvas_of _curElement arguments in
  let args := args_of arguments in
  let filename := nth 0 args Undefined in
  let extension := nth 1 args Undefined in
  match extension_for filename extension with
  | inl err => inl err
  | inr extension =>
      let mimeType := mimeType_for extension in
      match htmlCanvas with
      | Some c =>
          inr {| req_canvas := c; req_mime := mimeType;
                 req_filename := filename; req_extension := extension |}
      | None =>
          inl (Gif.TypeError
                 "Cannot read properties of undefined (reading 'toBlob')")
      end
  end.

End WithHelper.

(** An argument that [saveCanvas] would take for the canvas. *)
Definition is_canvas (v : JsValue) : bool :=
  match v with
  | Canvas _ | P5Element _ => true
  | _ => false
  end.

(** The canvas element behind a canvas argument. *)
Definition canvas_of (v : JsValue) : option Element :=
  match v with
  | Canvas c => Some {| elt := c |}
  | P5Element e => Some e
  | _ => None
  end.

End SaveCanvas.

(** ** A second stand-in library, which raises on a frame without bytes *)

Module GifSamples.

Import Gif.

Definition fussy : GifEnc :=
  {| quantize := fun d n o =>
       match d with
       | [] => inl (Thrown "no pixels")
       | _ => @quantize exact d n o
       end;
     applyPalette := @applyPalette exact |}.

(** A frame whose [ImageData] holds no bytes. *)
Definition blank (ms : Z) : GifFrame :=
  {| image := {| data := []; width := 0; height := 0 |}; delay := ms |}.

End GifSamples.

(** * Properties *)

(** ** Numbers and clamping *)

Lemma Qle_bool_false (a b : Q) : Qle_bool a b = false -> b < a.
Proof.
  intros H. apply Qnot_le_lt. intros Hle.
  apply Qle_bool_iff in Hle. congruence.
Qed.

Lemma min_spec (a b : Q) :
  (a <= b /\ JsNumber.min a b = a) \/ (b < a /\ JsNumber.min a b = b).
Proof.
  unfold JsNumber.min. destruct (Qle_bool a b) eqn:E.
  - left. split; [now apply Qle_bool_iff | reflexivity].
  - right. split; [now apply Qle_bool_false | reflexivity].
Qed.

Lemma max_spec (a b : Q) :
  (a <= b /\ JsNumber.max a b = b) \/ (b < a /\ JsNumber.max a b = a).
Proof.
  unfold JsNumber.max. destruct (Qle_bool a b) eqn:E.
  - left. split; [now apply Qle_bool_iff | reflexivity].
  - right. split; [now apply Qle_bool_false | reflexivity].
Qed.


Lemma constrain_clamped (n lo hi : Q) :
  lo < hi -> clamped lo hi n (constrain n lo hi).
Proof.
  intros Hlh. unfold clamped, constrain.
  destruct (min_spec n hi) as [[H1 ->] | [H1 ->]];
    [destruct (max_spec n lo) as [[H2 ->] | [H2 ->]]
    |destruct (max_spec hi lo) as [[H2 ->] | [H2 ->]]];
    repeat split; intros; try reflexivity; try lra.
Qed.

Lemma or_default_nonzero (v : option Q) (d : Q) :
  ~ d == 0 -> ~ JsNumber.or_default v d == 0.
Proof.
  intros Hd. unfold JsNumber.or_default. destruct v as [x|]; [|exact Hd].
  destruct (Qeq_bool x 0) eqn:E; [exact Hd|].
  now apply Qeq_bool_neq.
Qed.



(** ** The event loop of a capture session *)

Lemma tick_succ (p : Q) (k : nat) : tick p (S k) == tick p k + p.
Proof. change (Qred (tick p k + p) == tick p k + p). apply Qred_correct. Qed.

Lemma tick_value (p : Q) (k : nat) :
  tick p k == inject_Z (Z.of_nat (S k)) * p.
Proof.
  induction k as [|k IH].
  - change (Qred (0 + p) == 1 * p). rewrite Qred_correct. lra.
  - rewrite tick_succ, IH, (Nat2Z.inj_succ (S k)).
    unfold Z.succ. rewrite inject_Z_plus. change (inject_Z 1) with 1. ring.
Qed.


Section Capture.

Variable c : Closure.
Variables p d : Q.
Hypothesis period_p : period c = JsNumber.Finite p.




End Capture.


Lemma positive_period (f : Q) :
  0 < f -> f <= 22 -> 0 < 1000 / f /\ 1000 <= 22 * (1000 / f).
Proof.
  intros Hpos Hle.
  assert (Hp : 0 < 1000 / f).
  { apply Qlt_shift_div_l; [exact Hpos | lra]. }
  split; [exact Hp|].
  assert (Hf : f * (1000 / f) == 1000).
  { apply Qmult_div_r. intros E. rewrite E in Hpos. now apply Qlt_irrefl in Hpos. }
  assert (Hm : 0 <= (22 - f) * (1000 / f)).
  { apply Qmult_le_0_compat; lra. }
  assert (Hd : (22 - f) * (1000 / f) == 22 * (1000 / f) - f * (1000 / f)) by ring.
  rewrite Hd, Hf in Hm. lra.
Qed.


(** ** Properties of [saveFrames] *)

(** C2.  [saveFrames] clamps the caller's frame rate to [[0, 22]] and the
    caller's duration to [[0, 15]] seconds before either reaches a timer:
    a rate above 22 is used as 22 and a negative one as 0, a duration above
    15 as 15 and a negative one as 0, a value in range as it is; the
    interval is armed with the clamped rate and the hand-off with the
    clamped duration.  A call with fps 100 and duration 30 registers the
    same closure and the same timers as a call with fps 22 and duration 15,
    so that the two give the same session under every schedule. *)
Theorem saveFrames_clamps (this : P5) (fName : string) (extension : option string)
    (f d : Q) (callback : option JsFunction) :
  ~ f == 0 -> ~ d == 0 ->
  let start := saveFrames this fName extension (Some d) (Some f) callback in
  let hi := saveFrames this fName extension (Some 30) (Some 100) callback in
  let top := saveFrames this fName extension (Some 15) (Some 22) callback in
  clamped 0 22 f (fps_of (Some f)) /\
  (exists secs, clamped 0 15 d secs /\ duration_of (Some d) = secs * 1000) /\
  period (fst start) = JsNumber.div 1000 (fps_of (Some f)) /\
  handoff (snd start) = Some (duration_of (Some d) + 0.01) /\
  fps_of (Some 100) = 22 /\ duration_of (Some 30) = 15 * 1000 /\
  (22 < f -> 15 < d -> start = top) /\
  hi = top /\
  (forall schedule, play (fst hi) schedule (snd hi) = play (fst top) schedule (snd top)) /\
  session this fName extension (Some 30) (Some 100) callback =
    session this fName extension (Some 15) (Some 22) callback.
Proof.
  intros Hf Hd start hi top.
  assert (Ef : JsNumber.or_default (Some f) 15 = f).
  { unfold JsNumber.or_default. destruct (Qeq_bool f 0) eqn:E; [|reflexivity].
    apply Qeq_bool_iff in E. contradiction. }
  assert (Ed : JsNumber.or_default (Some d) 3 = d).
  { unfold JsNumber.or_default. destruct (Qeq_bool d 0) eqn:E; [|reflexivity].
    apply Qeq_bool_iff in E. contradiction. }
  assert (Cf : clamped 0 22 f (fps_of (Some f))).
  { unfold fps_of. rewrite Ef. apply constrain_clamped. reflexivity. }
  assert (Cd : clamped 0 15 d (constrain d 0 15)).
  { apply constrain_clamped. reflexivity. }
  assert (Ehi : hi = top) by (vm_compute; reflexivity).
  split; [exact Cf|]. split.
  { exists (constrain d 0 15). split; [exact Cd|].
    unfold duration_of. now rewrite Ed. }
  split; [reflexivity|]. split; [reflexivity|].
  split; [reflexivity|]. split; [reflexivity|].
  split; [|split; [exact Ehi|split]].
  - intros Hbf Hbd. destruct Cf as (_ & _ & Hf22 & _). destruct Cd as (_ & _ & Hd15 & _).
    unfold start, top, saveFrames, closure_of, duration_of.
    rewrite Ed, (Hf22 Hbf), (Hd15 Hbd). reflexivity.
  - intros schedule. now rewrite Ehi.
  - unfold session. fold hi. fold top. now rewrite Ehi.
Qed.

Lemma saveFrames_clamps_witness :
  ~ 100 == 0 /\ ~ 30 == 0 /\
  fps_of (Some 100) = 22 /\ duration_of (Some 30) = 15 * 1000 /\
  saveFrames sketch "f" None (Some 30) (Some 100) None =
    saveFrames sketch "f" None (Some 15) (Some 22) None.
Proof.
  assert (H1 : ~ 100 == 0) by discriminate.
  assert (H2 : ~ 30 == 0) by discriminate.
  split; [exact H1|]. split; [exact H2|].
  destruct (saveFrames_clamps sketch "f" None 100 30 None H1 H2)
    as (_ & _ & _ & _ & Hf & Hd & _ & He & _).
  split; [exact Hf|]. split; [exact Hd | exact He].
Defined.

(** *** Every schedule *)
















(** C9, as stated, fails: a negative frame rate is truthy, so it is not
    replaced by the default; clamping takes it to 0 and the period
    [1000 / 0] is [Infinity]. *)
Lemma negative_fps_divides_by_zero :
  fps_of (Some (-5)) = 0 /\
  ~ 0 < fps_of (Some (-5)) /\
  JsNumber.div 1000 (fps_of (Some (-5))) = JsNumber.Infinity.
Proof.
  split; [reflexivity|]. split; [|vm_compute; reflexivity].
  intros H. vm_compute in H. discriminate.
Qed.

(** C9, amended.  When the frame-rate argument is not negative, the rate
    that reaches the division is strictly positive and at most 22, so
    [1000 / fps] is never a division by zero: the period is the positive
    number [1000 / fps] whenever that fits a double, and [Infinity] only by
    overflow, for a rate that is positive but tiny.  A missing or zero frame
    rate is replaced by 15 and a missing or zero duration by 3 seconds
    before clamping. *)
Theorem fps_positive_unless_negative (_fps : option Q) :
  (forall f, _fps = Some f -> 0 <= f) ->
  0 < fps_of _fps <= 22 /\
  ~ fps_of _fps == 0 /\
  0 < 1000 / fps_of _fps /\
  (1000 / fps_of _fps <= JsNumber.max_double ->
     JsNumber.div 1000 (fps_of _fps) = JsNumber.Finite (1000 / fps_of _fps)) /\
  (JsNumber.max_double < 1000 / fps_of _fps ->
     JsNumber.div 1000 (fps_of _fps) = JsNumber.Infinity) /\
  fps_of None = 15 /\
  (forall f, f == 0 -> fps_of (Some f) = 15) /\
  duration_of None = 3 * 1000 /\
  (forall x, x == 0 -> duration_of (Some x) = 3 * 1000).
Proof.
  intros Hnn.
  assert (Hpos : 0 < fps_of _fps <= 22).
  { unfold fps_of. set (x := JsNumber.or_default _fps 15).
    assert (Hx : 0 < x).
    { assert (Hx0 : ~ x == 0) by (apply or_default_nonzero; discriminate).
      assert (Hx1 : 0 <= x).
      { unfold x, JsNumber.or_default. destruct _fps as [f|]; [|discriminate].
        destruct (Qeq_bool f 0); [discriminate|]. now apply Hnn. }
      apply Qle_lteq in Hx1. destruct Hx1 as [H|H]; [exact H|].
      exfalso. apply Hx0. now symmetry. }
    destruct (constrain_clamped x 0 22) as (Hr & _ & Hhi & Hin); [reflexivity|].
    split; [|apply Hr].
    destruct (Qlt_le_dec 22 x) as [Hbig|Hsmall].
    - rewrite (Hhi Hbig). reflexivity.
    - rewrite Hin; [exact Hx|]. split; [now apply Qlt_le_weak | exact Hsmall]. }
  assert (Hnz : ~ fps_of _fps == 0).
  { intros E. rewrite E in Hpos. destruct Hpos as [H _]. now apply Qlt_irrefl in H. }
  assert (E0 : Qeq_bool (fps_of _fps) 0 = false).
  { destruct (Qeq_bool (fps_of _fps) 0) eqn:E; [|reflexivity].
    apply Qeq_bool_iff in E. contradiction. }
  split; [exact Hpos|]. split; [exact Hnz|].
  split; [apply positive_period; apply Hpos|].
  split; [|split; [|split; [|split; [|split]]]].
  - intros Hfit. unfold JsNumber.div. rewrite E0.
    apply Qle_bool_iff in Hfit. now rewrite Hfit.
  - intros Hover. unfold JsNumber.div. rewrite E0.
    destruct (Qle_bool (1000 / fps_of _fps) JsNumber.max_double) eqn:E; [|reflexivity].
    apply Qle_bool_iff in E. exfalso. apply (Qlt_irrefl JsNumber.max_double).
    eapply Qlt_le_trans; [exact Hover | exact E].
  - reflexivity.
  - intros f Hf. unfold fps_of, JsNumber.or_default.
    apply Qeq_bool_iff in Hf. now rewrite Hf.
  - reflexivity.
  - intros x Hx. unfold duration_of, JsNumber.or_default.
    apply Qeq_bool_iff in Hx. now rewrite Hx.
Qed.

Lemma fps_positive_unless_negative_witness :
  (forall f, Some 10 = Some f -> 0 <= f) /\
  0 < fps_of (Some 10) <= 22 /\
  JsNumber.div 1000 (fps_of (Some 10)) = JsNumber.Finite (1000 / fps_of (Some 10)).
Proof.
  assert (H : forall f, Some 10 = Some f -> 0 <= f).
  { intros f E. injection E as <-. discriminate. }
  split; [exact H|].
  destruct (fps_positive_unless_negative (Some 10) H) as (H1 & _ & _ & H2 & _).
  split; [exact H1|]. apply H2. vm_compute. discriminate.
Defined.

(** ** Properties of [_makeFrame] *)

Lemma mimeType_of_cases (extension : option string) :
  mimeType_of extension = "image/png" \/ mimeType_of extension = "image/jpeg".
Proof.
  unfold mimeType_of. destruct (falsy extension); [now left|].
  repeat match goal with |- context [if ?b then _ else _] => destruct b end;
    auto.
Qed.





(** On a canvas that answers [data:<mime>;base64,...], the record of a
    [JPG] capture starts with [data:image/octet-stream]. *)
Example makeFrame_jpg :
  _makeFrame None 0 "shot0" (Some "JPG")
    {| toDataURL := fun _ m => "data:" ++ m ++ ";base64,AAAA" |}
  = {| imageData := "data:image/octet-stream;base64,AAAA";
       filename := "shot0"; ext := "JPG" |}.
Proof. reflexivity. Qed.

(** ** Properties of [encodeAndDownloadGif] *)

Module GifFacts.

Import Gif.
Local Open Scope Z_scope.


Section Loop.

Context {L : GifEnc}.
Variable env : Globals.

Lemma write_frames_ok (W H : Z) :
  g_width env = Some W -> g_height env = Some H ->
  forall (fs : list GifFrame) (i : nat) (gif : Encoder) (w : World),
    Forall library_returns fs ->
    exists recs,
      write_frames env i fs gif w =
        (inr {| written := written gif ++ recs; finished := finished gif |},
         {| console := console w ++ progress i (length fs);
            downloads := downloads w |}) /\
      Forall2 (written_for W H) fs recs.
Proof.
  intros HW HH fs. induction fs as [|f fs IH]; intros i gif w Hlib.
  - exists []. split; [|constructor].
    simpl. unfold ret, progress. simpl. rewrite !app_nil_r.
    now destruct gif, w.
  - inversion Hlib as [|? ? Hf Hrest]; subst.
    destruct Hf as (palette & index & Hq & Ha).
    set (gif' := writeFrame gif index W H
                   {| opt_palette := palette; opt_delay := delay f |}).
    set (w' := {| console := console w ++
                    [("Processing frame " ++ JsString.of_nat i)%string];
                  downloads := downloads w |}).
    destruct (IH (S i) gif' w' Hrest) as (recs & Hrun & Hrecs).
    exists (record_of W H f palette index :: recs). split.
    + cbn [write_frames]. unfold bind at 1. unfold console_info at 1.
      fold w'. unfold bind at 1. unfold lift at 1.
      change {| format := rgba4444; clearAlpha := false |} with options.
      rewrite Hq. unfold bind at 1. unfold lift at 1. rewrite Ha.
      rewrite HW, HH. unfold bind at 1. cbn [global ret].
      unfold bind at 1. cbn [ret]. fold gif'. rewrite Hrun.
      unfold gif', w', writeFrame, progress, record_of. cbn.
      now rewrite <- !app_assoc.
    + constructor; [|exact Hrecs]. now exists palette, index.
Qed.

Lemma write_frames_essence :
  forall (fs fs' : list GifFrame) (i : nat) (gif : Encoder) (w : World),
    map essence fs = map essence fs' ->
    write_frames env i fs gif w = write_frames env i fs' gif w.
Proof.
  induction fs as [|f fs IH]; intros [|f' fs'] i gif w E;
    try discriminate; [reflexivity|].
  cbn [map] in E. unfold essence at 1 3 in E.
  injection E as Ed Edelay Erest.
  cbn [write_frames]. rewrite Ed, Edelay.
  unfold bind. destruct (console_info _ w) as [[e|[]] w1]; [reflexivity|].
  destruct (lift _ w1) as [[e|palette] w2]; [reflexivity|].
  destruct (lift _ w2) as [[e|index] w3]; [reflexivity|].
  destruct (global _ _ w3) as [[e|W] w4]; [reflexivity|].
  destruct (global _ _ w4) as [[e|H] w5]; [reflexivity|].
  now apply IH.
Qed.

(** When the identifiers [width] and [height] are bound and gifenc
    returns on every frame, the call succeeds: one progress line and
    one record per frame, in order, and one download of the finished
    stream. *)
Lemma encode_ok (W H : Z) (pImg : PImage) (fs : list GifFrame)
    (filename : string) (w : World) :
  gifProperties pImg = Some {| frames := fs |} ->
  g_width env = Some W -> g_height env = Some H ->
  Forall library_returns fs ->
  exists recs,
    encodeAndDownloadGif env pImg filename w =
      (inr tt,
       {| console := console w ++ progress 0 (length fs);
          downloads := downloads w ++
            [{| payload := delivered recs; name := filename;
                extension := "gif" |}] |}) /\
    Forall2 (written_for W H) fs recs.
Proof.
  intros Hp HW HH Hlib.
  destruct (write_frames_ok W H HW HH fs 0%nat GIFEncoder w Hlib)
    as (recs & Hrun & Hrecs).
  exists recs. split; [|exact Hrecs].
  unfold encodeAndDownloadGif. rewrite Hp. unfold bind at 1. cbn [ret frames].
  unfold bind at 1. rewrite Hrun. reflexivity.
Qed.

End Loop.

Lemma written_for_length {L : GifEnc} (W H : Z) (fs : list GifFrame)
    (recs : list FrameRecord) :
  Forall2 (written_for W H) fs recs ->
  length recs = length fs /\
  map (fun r => opt_delay (rec_opts r)) recs = map delay fs /\
  Forall (fun r => rec_width r = W /\ rec_height r = H) recs.
Proof.
  induction 1 as [|f r fs recs Hfr _ (IHl & IHd & IHw)].
  - repeat split. constructor.
  - destruct Hfr as (palette & index & _ & _ & ->).
    cbn. rewrite IHl, IHd. repeat split. constructor; [split; reflexivity|exact IHw].
Qed.


(** C1.  The function body reads [width] and [height], which it never
    defines.  Where [width] is not bound (no such global exists outside
    p5's global mode), a one-frame sequence is not written at all: the call
    ends with a [ReferenceError] after the progress line of frame 0, no
    record reaches the encoder and nothing is delivered. *)
Example unbound_width_raises :
  @encodeAndDownloadGif exact {| g_width := None; g_height := None |}
    (gif_of [solid 1 1 red 100]) "anim" quiet =
    (inl (ReferenceError "width is not defined"),
     {| console := ["Processing frame 0"%string]; downloads := [] |}).
Proof. reflexivity. Qed.

(** C3, as stated, fails: with zero frames nothing is raised, and the
    finished encoder, holding no frame, is handed to [downloadFile]; not
    even the missing bindings of [width] and [height] are noticed. *)
Lemma zero_frames_are_delivered :
  @encodeAndDownloadGif exact {| g_width := None; g_height := None |}
    (gif_of []) "anim" quiet =
    (inr tt,
     {| console := [];
        downloads := [{| payload := delivered []; name := "anim";
                         extension := "gif" |}] |}).
Proof. reflexivity. Qed.

(** C3, amended.  Called with zero frames, [encodeAndDownloadGif] raises
    no error: it writes no frame record and no progress line, finishes
    the encoder and delivers that frame-less stream to [downloadFile]
    under the given file name with extension [gif]. *)
Theorem zero_frames_download {L : GifEnc} (env : Globals) (pImg : PImage)
    (filename : string) (w : World) :
  gifProperties pImg = Some {| frames := [] |} ->
  encodeAndDownloadGif env pImg filename w =
    (inr tt,
     {| console := console w;
        downloads := downloads w ++
          [{| payload := delivered []; name := filename;
              extension := "gif" |}] |}).
Proof.
  intros Hp. unfold encodeAndDownloadGif. rewrite Hp. reflexivity.
Qed.

Lemma zero_frames_download_witness :
  gifProperties (gif_of []) = Some {| frames := [] |} /\
  @encodeAndDownloadGif exact {| g_width := Some 4; g_height := Some 4 |}
    (gif_of []) "empty" quiet =
    (inr tt,
     {| console := [];
        downloads := [{| payload := delivered []; name := "empty";
                         extension := "gif" |}] |}).
Proof.
  split; [reflexivity|].
  exact (@zero_frames_download exact {| g_width := Some 4; g_height := Some 4 |}
           (gif_of []) "empty" quiet eq_refl).
Defined.


(** C4, as stated, fails: the third of five frames is wider than the
    rest, yet the call ends normally and delivers a stream of five
    records, each written with the ambient 2 x 3. *)
Lemma wider_third_frame_is_delivered :
  ~ same_dimensions third_is_wider /\
  exists blob,
    @encodeAndDownloadGif exact {| g_width := Some 2; g_height := Some 3 |}
      (gif_of third_is_wider) "anim" quiet =
      (inr tt,
       {| console := progress 0 5;
          downloads := [{| payload := blob; name := "anim"; extension := "gif" |}] |}) /\
    length (decode blob) = 5%nat /\
    map (fun r => (rec_width r, rec_height r)) (decode blob) =
      [(2, 3); (2, 3); (2, 3); (2, 3); (2, 3)].
Proof.
  split.
  - intros Hsame.
    destruct (Hsame (solid 2 3 red 100) (solid 3 2 red 100)) as [Hw _];
      [left; reflexivity | right; right; left; reflexivity |].
    discriminate Hw.
  - eexists. split; [vm_compute; reflexivity|]. split; reflexivity.
Qed.

(** C4, amended.  [encodeAndDownloadGif] never reads the width or height
    of a frame and raises no dimension error: two sequences whose frames
    have the same bytes and the same delays, frame by frame, give the
    same result and the same deliveries, whatever dimensions the frames
    declare. *)
Theorem dimensions_are_not_checked {L : GifEnc} (env : Globals)
    (fs fs' : list GifFrame) (filename : string) (w : World) :
  map essence fs = map essence fs' ->
  encodeAndDownloadGif env (gif_of fs) filename w =
  encodeAndDownloadGif env (gif_of fs') filename w.
Proof.
  intros E. unfold encodeAndDownloadGif, gif_of. cbn [gifProperties].
  unfold bind at 1 3. cbn [ret frames]. unfold bind at 1 2.
  now rewrite (write_frames_essence env fs fs' 0%nat GIFEncoder w E).
Qed.

Lemma dimensions_are_not_checked_witness :
  map essence third_is_wider = map essence all_alike /\
  @encodeAndDownloadGif exact {| g_width := Some 2; g_height := Some 3 |}
    (gif_of third_is_wider) "anim" quiet =
  @encodeAndDownloadGif exact {| g_width := Some 2; g_height := Some 3 |}
    (gif_of all_alike) "anim" quiet.
Proof.
  split; [reflexivity|].
  exact (@dimensions_are_not_checked exact
           {| g_width := Some 2; g_height := Some 3 |}
           third_is_wider all_alike "anim" quiet eq_refl).
Defined.

End GifFacts.

(** ** More about [saveFrames]: how many stills, and which *)







(** ** More about [_makeFrame] *)

(** X6.  When the canvas answers with a data URI of the usual form,
    [data:] followed by the mime type asked for and the rest, the record
    holds [data:image/octet-stream] followed by that same rest, whatever the
    extension was. *)
Theorem makeFrame_octet_stream (this : option P5) (now : Q) (name : string)
    (extension : option string) (_cnv : HTMLCanvasElement) (rest : string) :
  let cnv := match this with
             | Some p => elt (_curElement p)
             | None => _cnv
             end in
  toDataURL cnv now (mimeType_of extension) =
    ("data:" ++ mimeType_of extension ++ rest)%string ->
  imageData (_makeFrame this now name extension _cnv) =
    ("data:image/octet-stream" ++ rest)%string.
Proof.
  intros cnv H. unfold _makeFrame. fold cnv. cbn [imageData]. rewrite H.
  destruct (mimeType_of_cases extension) as [-> | ->]; reflexivity.
Qed.

Lemma makeFrame_octet_stream_witness :
  let cnv := {| toDataURL := fun _ m => ("data:" ++ m ++ ";base64,iVBOR")%string |} in
  toDataURL cnv 0 (mimeType_of (Some "jpeg")) =
    ("data:" ++ mimeType_of (Some "jpeg") ++ ";base64,iVBOR")%string /\
  imageData (_makeFrame None 0 "shot" (Some "jpeg") cnv) =
    "data:image/octet-stream;base64,iVBOR".
Proof.
  intros cnv. split; [reflexivity|].
  exact (makeFrame_octet_stream None 0 "shot" (Some "jpeg") cnv ";base64,iVBOR"
           eq_refl).
Defined.

(** ** [saveCanvas] *)

Module SaveCanvasFacts.

Import SaveCanvas.

Section Helper.

Variable helper : JsValue -> JsValue -> Gif.Result (JsValue * JsValue).

(** X7.  A leading canvas argument only replaces the current canvas:
    [saveCanvas(c, name, ext)] makes the same request as
    [saveCanvas(name, ext)] on a sketch whose current element is [c],
    provided the argument after [c] is not itself a canvas. *)
Theorem canvas_argument_replaces_current (cur : option Element) (v : JsValue)
    (e : Element) (rest : list JsValue) :
  canvas_of v = Some e ->
  is_canvas (nth 0 rest Undefined) = false ->
  saveCanvas helper cur (v :: rest) = saveCanvas helper (Some e) rest.
Proof.
  intros Hv Hrest.
  destruct v as [|s|c|e']; try discriminate; injection Hv as <-;
    destruct rest as [|[|s'|c'|e''] rest']; try discriminate; reflexivity.
Qed.

Lemma extension_for_truthy (filename raw ext : JsValue) :
  extension_for helper filename raw = inr ext -> truthy ext = true.
Proof.
  unfold extension_for. destruct (truthy raw) eqn:E.
  - now intros [= <-].
  - destruct (helper filename raw) as [err|found]; [discriminate|].
    intros [= <-]. unfold or. now destruct (truthy (snd found)) eqn:Ef.
Qed.


(** X9.  Every request carries an extension that is not missing or empty,
    and asks the canvas for [image/jpeg] exactly when that extension is
    [jpeg] or [jpg] as spelled; in every other case it asks for
    [image/png]. *)
Theorem request_extension_and_mime (cur : option Element)
    (arguments : list JsValue) (r : Request) :
  saveCanvas helper cur arguments = inr r ->
  truthy (req_extension r) = true /\
  (req_mime r = "image/jpeg" <->
     req_extension r = Str "jpeg" \/ req_extension r = Str "jpg") /\
  (req_mime r = "image/png" \/ req_mime r = "image/jpeg").
Proof.
  intros H. unfold saveCanvas in H.
  destruct (extension_for helper _ _) as [err|x] eqn:Ex; [discriminate|].
  apply extension_for_truthy in Ex.
  destruct (htmlCanvas_of cur arguments) as [c|]; [|discriminate].
  injection H as <-. cbn [req_extension req_mime]. split; [exact Ex|]. split.
  - unfold mimeType_for.
    destruct x as [|s|c'|e];
      try (split; [discriminate | intros [?|?]; discriminate]).
    destruct (String.eqb_spec s "jpeg") as [->|Hj]; [split; auto|].
    destruct (String.eqb_spec s "jpg") as [->|Hg]; [split; auto|].
    split; [discriminate|]. intros [[= ?]|[= ?]]; contradiction.
  - unfold mimeType_for. destruct x; auto.
    repeat match goal with |- context [if ?b then _ else _] => destruct b end;
      auto.
Qed.

End Helper.

Lemma canvas_argument_replaces_current_witness :
  let helper := fun name _ : JsValue => inr (name, Str EmptyString) in
  let c := {| toDataURL := fun _ m => m |} in
  canvas_of (Canvas c) = Some {| elt := c |} /\
  is_canvas (nth 0 [Str "myCanvas"; Str "jpg"] Undefined) = false /\
  saveCanvas helper None [Canvas c; Str "myCanvas"; Str "jpg"] =
    saveCanvas helper (Some {| elt := c |}) [Str "myCanvas"; Str "jpg"].
Proof.
  intros helper c. split; [reflexivity|]. split; [reflexivity|].
  exact (canvas_argument_replaces_current helper None (Canvas c) {| elt := c |}
           [Str "myCanvas"; Str "jpg"] eq_refl eq_refl).
Defined.

Lemma request_extension_and_mime_witness :
  let helper := fun name _ : JsValue => inr (name, Str EmptyString) in
  let c := {| toDataURL := fun _ m => m |} in
  let r := {| req_canvas := c; req_mime := "image/png";
              req_filename := Str "myCanvas"; req_extension := Str "png" |} in
  saveCanvas helper (Some {| elt := c |}) [Str "myCanvas"] = inr r /\
  truthy (req_extension r) = true.
Proof.
  intros helper c r.
  assert (H : saveCanvas helper (Some {| elt := c |}) [Str "myCanvas"] = inr r)
    by reflexivity.
  split; [exact H|].
  exact (proj1 (request_extension_and_mime helper (Some {| elt := c |})
                  [Str "myCanvas"] r H)).
Defined.

Lemma mime_compare (e : string) :
  (mimeType_of (Some e) <> mimeType_for (Str e) <->
     (JsString.toLowerCase e = "jpeg" \/ JsString.toLowerCase e = "jpg") /\
     e <> "jpeg" /\ e <> "jpg") /\
  (mimeType_of (Some e) <> mimeType_for (Str e) ->
     mimeType_of (Some e) = "image/jpeg" /\ mimeType_for (Str e) = "image/png").
Proof.
  assert (Hlow : forall s, (s = "jpeg" -> JsString.toLowerCase s = "jpeg") /\
                           (s = "jpg" -> JsString.toLowerCase s = "jpg")).
  { intros s. split; intros ->; reflexivity. }
  destruct e as [|a e].
  - split; [split|]; [intros H; now contradiction H
                     | intros ([H|H] & _); discriminate
                     | intros H; now contradiction H].
  - assert (Hm : mimeType_of (Some (String a e)) =
              if String.eqb (JsString.toLowerCase (String a e)) "png" then "image/png"
              else if String.eqb (JsString.toLowerCase (String a e)) "jpeg" then "image/jpeg"
              else if String.eqb (JsString.toLowerCase (String a e)) "jpg" then "image/jpeg"
              else "image/png") by reflexivity.
    rewrite Hm. unfold mimeType_for.
    set (s := String a e) in *. destruct (Hlow s) as [Hl1 Hl2].
    destruct (String.eqb_spec s "jpeg") as [E1|E1].
    { rewrite (Hl1 E1). cbn. split; [split|];
        [intros H; now contradiction H | intros (_ & H & _); contradiction
        | intros H; now contradiction H]. }
    destruct (String.eqb_spec s "jpg") as [E2|E2].
    { rewrite (Hl2 E2). cbn. split; [split|];
        [intros H; now contradiction H | intros (_ & _ & H); contradiction
        | intros H; now contradiction H]. }
    destruct (String.eqb_spec (JsString.toLowerCase s) "png") as [L0|L0].
    { split; [split|];
        [intros H; now contradiction H
        | intros ([H|H] & _); rewrite L0 in H; discriminate
        | intros H; now contradiction H]. }
    destruct (String.eqb_spec (JsString.toLowerCase s) "jpeg") as [L1|L1].
    { split; [split|]; [intros _; auto | discriminate | auto]. }
    destruct (String.eqb_spec (JsString.toLowerCase s) "jpg") as [L2|L2].
    { split; [split|]; [intros _; auto | discriminate | auto]. }
    split; [split|];
      [intros H; now contradiction H
      | intros ([H|H] & _); contradiction
      | intros H; now contradiction H].
Qed.


(** X10.  For an extension that is passed and not empty, [saveCanvas]
    compares it as spelled while [_makeFrame] lower-cases it first: the mime
    type of the request differs from the one [_makeFrame] picks exactly for
    the spellings of [jpeg] and [jpg] that have an upper-case letter, such
    as [JPG], which [_makeFrame] encodes as JPEG and [saveCanvas] as PNG. *)
Theorem mime_choice_differs_on_case
    (helper : JsValue -> JsValue -> Gif.Result (JsValue * JsValue))
    (cur : Element) (name : JsValue) (e : string) :
  is_canvas name = false ->
  e <> EmptyString ->
  exists r,
    saveCanvas helper (Some cur) [name; Str e] = inr r /\
    req_extension r = Str e /\
    (req_mime r <> mimeType_of (Some e) <->
       (JsString.toLowerCase e = "jpeg" \/ JsString.toLowerCase e = "jpg") /\
       e <> "jpeg" /\ e <> "jpg") /\
    (req_mime r <> mimeType_of (Some e) ->
       mimeType_of (Some e) = "image/jpeg" /\ req_mime r = "image/png") /\
    mimeType_of (Some "JPG") = "image/jpeg" /\
    mimeType_for (Str "JPG") = "image/png" /\
    mimeType_of (Some "Jpeg") = "image/jpeg" /\
    mimeType_for (Str "Jpeg") = "image/png".
Proof.
  intros Hn He.
  exists {| req_canvas := elt cur; req_mime := mimeType_for (Str e);
            req_filename := name; req_extension := Str e |}.
  split.
  { unfold saveCanvas, extension_for.
    destruct name as [|s|c|e']; try discriminate;
      destruct e; try congruence; reflexivity. }
  split; [reflexivity|]. cbn [req_mime].
  destruct (mime_compare e) as [Hiff Himp].
  split; [|split; [|repeat split; reflexivity]].
  - split.
    + intros H. apply Hiff. intros E. apply H. now symmetry.
    + intros H E. apply Hiff in H. apply H. now symmetry.
  - intros H. apply Himp. intros E. apply H. now symmetry.
Qed.

Lemma mime_choice_differs_on_case_witness :
  let helper := fun name _ : JsValue => inr (name, Str EmptyString) in
  let cur := {| elt := {| toDataURL := fun _ m => m |} |} in
  is_canvas (Str "photo") = false /\ "JPG" <> EmptyString /\
  exists r,
    saveCanvas helper (Some cur) [Str "photo"; Str "JPG"] = inr r /\
    req_mime r = "image/png" /\ mimeType_of (Some "JPG") = "image/jpeg".
Proof.
  intros helper cur.
  assert (H : "JPG" <> EmptyString) by discriminate.
  split; [reflexivity|]. split; [exact H|].
  destruct (mime_choice_differs_on_case helper cur (Str "photo") "JPG" eq_refl H)
    as (r & Hr & _ & _ & _ & Hj & _).
  exists r. split; [exact Hr|]. split; [|exact Hj].
  unfold saveCanvas, extension_for in Hr. cbn in Hr. now injection Hr as <-.
Defined.

End SaveCanvasFacts.

(** ** More about [encodeAndDownloadGif]: failures and dimensions *)

Module GifErrors.

Import Gif.
Local Open Scope Z_scope.

Section Loop.

Context {L : GifEnc}.
Variable env : Globals.

(** The loop over [fs1 ++ fs2] is the loop over [fs1] followed, when that
    one ends normally, by the loop over [fs2] from the next index on. *)
Lemma write_frames_app (fs1 fs2 : list GifFrame) :
  forall (i : nat) (gif : Encoder) (w : World),
    write_frames env i (fs1 ++ fs2) gif w =
      match write_frames env i fs1 gif w with
      | (inr g, w1) => write_frames env (i + length fs1) fs2 g w1
      | (inl e, w1) => (inl e, w1)
      end.
Proof.
  induction fs1 as [|f fs1 IH]; intros i gif w.
  - cbn. now rewrite Nat.add_0_r.
  - cbn [app write_frames length]. unfold bind.
    destruct (console_info _ w) as [[e|[]] w1]; [reflexivity|].
    destruct (lift _ w1) as [[e|palette] w2]; [reflexivity|].
    destruct (lift _ w2) as [[e|index] w3]; [reflexivity|].
    destruct (global _ _ w3) as [[e|W] w4]; [reflexivity|].
    destruct (global _ _ w4) as [[e|H] w5]; [reflexivity|].
    rewrite IH. now rewrite Nat.add_succ_r.
Qed.

Lemma write_frames_keeps_downloads (fs : list GifFrame) :
  forall (i : nat) (gif : Encoder) (w : World),
    downloads (snd (write_frames env i fs gif w)) = downloads w /\
    match fst (write_frames env i fs gif w) with
    | inr g => finished g = finished gif
    | inl _ => True
    end.
Proof.
  induction fs as [|f fs IH]; intros i gif w.
  - split; reflexivity.
  - cbn [write_frames]. unfold bind.
    unfold console_info at 1 2. unfold lift.
    destruct (quantize _ _ _) as [e|palette]; [split; [reflexivity|exact I]|].
    destruct (applyPalette _ _ _) as [e|index]; [split; [reflexivity|exact I]|].
    destruct (g_width env) as [W|]; [|split; [reflexivity|exact I]].
    destruct (g_height env) as [H|]; [|split; [reflexivity|exact I]].
    cbn [global ret].
    match goal with
    | |- context [write_frames env (S i) fs ?g ?w'] =>
        destruct (IH (S i) g w') as [Hd Hf]
    end.
    split; [exact Hd|].
    destruct (fst (write_frames env (S i) fs _ _)); [exact I | exact Hf].
Qed.

End Loop.

Lemma encode_unfold {L : GifEnc} (env : Globals) (pImg : PImage)
    (filename : string) (w : World) :
  encodeAndDownloadGif env pImg filename w =
    match gifProperties pImg with
    | None => (inl (TypeError "pImg.gifProperties is null"), w)
    | Some g =>
        match write_frames env 0 (frames g) GIFEncoder w with
        | (inr gif, w1) =>
            downloadFile {| parts := bytesView (finish gif); type := "image/gif" |}
              filename "gif" w1
        | (inl e, w1) => (inl e, w1)
        end
    end.
Proof.
  unfold encodeAndDownloadGif. destruct (gifProperties pImg) as [g|]; reflexivity.
Qed.

(** X11.  A call that ends with an exception delivers nothing: the list of
    downloads is as it was.  A call that ends normally adds exactly one
    download, of a finished stream of type [image/gif], under the given
    file name with extension [gif]. *)
Theorem failure_delivers_nothing {L : GifEnc} (env : Globals) (pImg : PImage)
    (filename : string) (w : World) :
  let run := encodeAndDownloadGif env pImg filename w in
  match fst run with
  | inl _ => downloads (snd run) = downloads w
  | inr _ =>
      exists blob,
        downloads (snd run) =
          (downloads w ++ [{| payload := blob; name := filename;
                              extension := "gif" |}])%list /\
        type blob = "image/gif"%string /\
        finished (parts blob) = true
  end.
Proof.
  intros run. unfold run. rewrite encode_unfold.
  destruct (gifProperties pImg) as [g|]; [|reflexivity].
  destruct (write_frames_keeps_downloads env (frames g) 0%nat GIFEncoder w)
    as [Hd Hf].
  destruct (write_frames env 0 (frames g) GIFEncoder w) as [[e|gif] w1];
    cbn [fst snd] in *; [exact Hd|].
  eexists. split; [|split]; [rewrite <- Hd; reflexivity | reflexivity | reflexivity].
Qed.



(** X13.  An exception raised by gifenc on a frame ends the call with that
    exception, provided the frames before it were written (so [width] and
    [height] are bound) or it is the first frame: the progress line of the
    failing frame is the last one printed, the frames after it are never
    looked at, and nothing is delivered. *)
Theorem library_error_stops_encoding {L : GifEnc} (env : Globals) (W H : Z)
    (before : list GifFrame) (f : GifFrame) (rest : list GifFrame)
    (e : JsError) (filename : string) (w : World) :
  before = [] \/ (g_width env = Some W /\ g_height env = Some H) ->
  Forall library_returns before ->
  (quantize (data (image f)) 256 options = inl e \/
   exists palette,
     quantize (data (image f)) 256 options = inr palette /\
     applyPalette (data (image f)) palette rgba4444 = inl e) ->
  encodeAndDownloadGif env (gif_of (before ++ f :: rest)) filename w =
    (inl e,
     {| console := (console w ++ progress 0 (S (length before)))%list;
        downloads := downloads w |}).
Proof.
  intros Hdims Hlib Hfail.
  unfold encodeAndDownloadGif, gif_of. cbn [gifProperties].
  unfold bind at 1. cbn [ret frames]. unfold bind at 1.
  assert (Hstep : forall (i : nat) (gif : Encoder) (w1 : World),
            write_frames env i (f :: rest) gif w1 =
              (inl e, {| console := (console w1 ++
                           [("Processing frame " ++ JsString.of_nat i)%string])%list;
                         downloads := downloads w1 |})).
  { intros i gif w1. cbn [write_frames]. unfold bind at 1. unfold console_info at 1.
    change {| format := rgba4444; clearAlpha := false |} with options.
    destruct Hfail as [Hq | (palette & Hq & Ha)].
    - unfold bind at 1. unfold lift at 1. now rewrite Hq.
    - unfold bind at 1. unfold lift at 1. rewrite Hq.
      unfold bind at 1. unfold lift at 1. now rewrite Ha. }
  destruct Hdims as [-> | [HW HH]].
  - cbn [app length]. rewrite Hstep. reflexivity.
  - rewrite write_frames_app.
    destruct (GifFacts.write_frames_ok env W H HW HH before 0%nat GIFEncoder w Hlib)
      as (recs & Hrun & _).
    rewrite Hrun, Hstep. cbn [console downloads].
    unfold progress. rewrite seq_S, map_app, <- app_assoc. reflexivity.
Qed.

Lemma library_error_stops_encoding_witness :
  let env := {| g_width := Some 1; g_height := Some 1 |} in
  let before := [solid 1 1 red 100; solid 1 1 blue 100] in
  @encodeAndDownloadGif GifSamples.fussy env
    (gif_of (before ++ GifSamples.blank 100 :: [solid 1 1 red 100])) "anim" quiet =
    (inl (Thrown "no pixels"),
     {| console := progress 0 3; downloads := [] |}).
Proof.
  intros env before.
  apply (@library_error_stops_encoding GifSamples.fussy env 1 1 before
           (GifSamples.blank 100) [solid 1 1 red 100] (Thrown "no pixels")
           "anim" quiet).
  - right. split; reflexivity.
  - repeat constructor; eexists; eexists; split; reflexivity.
  - left. reflexivity.
Defined.

(** X14.  Every record of a delivered stream carries the ambient [width]
    and [height], the same for all frames, whatever dimensions the frames
    themselves declare. *)
Theorem records_carry_ambient_dimensions {L : GifEnc} (env : Globals)
    (W H : Z) (fs : list GifFrame) (filename : string) (w : World) :
  g_width env = Some W -> g_height env = Some H ->
  Forall library_returns fs ->
  exists blob,
    downloads (snd (encodeAndDownloadGif env (gif_of fs) filename w)) =
      (downloads w ++ [{| payload := blob; name := filename;
                          extension := "gif" |}])%list /\
    length (decode blob) = length fs /\
    Forall (fun r => rec_width r = W /\ rec_height r = H) (decode blob).
Proof.
  intros HW HH Hlib.
  destruct (GifFacts.encode_ok env W H (gif_of fs) fs filename w eq_refl HW HH Hlib)
    as (recs & Hrun & Hrecs).
  destruct (GifFacts.written_for_length W H fs recs Hrecs) as (Hl & _ & Hdims).
  exists (delivered recs). rewrite Hrun. split; [reflexivity|].
  split; [exact Hl | exact Hdims].
Qed.

Lemma records_carry_ambient_dimensions_witness :
  let env := {| g_width := Some 100; g_height := Some 100 |} in
  exists blob,
    downloads (snd (@encodeAndDownloadGif exact env
                      (gif_of [solid 2 3 red 100; solid 3 2 blue 40]) "anim" quiet)) =
      [{| payload := blob; name := "anim"; extension := "gif" |}] /\
    length (decode blob) = 2%nat /\
    Forall (fun r => rec_width r = 100 /\ rec_height r = 100) (decode blob).
Proof.
  intros env.
  apply (@records_carry_ambient_dimensions exact env 100 100
           [solid 2 3 red 100; solid 3 2 blue 40] "anim" quiet);
    try reflexivity.
  repeat constructor; eexists; eexists; split; reflexivity.
Defined.

End GifErrors.
